(** * Structured-data projections of wagtailseo/blocks.py

    A shallow embedding of the value classes of [wagtailseo/blocks.py]:
    [OpenHoursValue.struct_dict], [StructuredDataActionValue.struct_dict] and
    the [MultipleChoiceField] that backs [MultiSelectBlock].

    Python values are modelled by [pyval]; a Python [str] is a list of Unicode
    code points; a Python [dict] is an association list kept in insertion
    order, updated in place through an explicit state-and-exception monad.
    [json.loads] is modelled after CPython's C scanner ([_json.c]). *)

From Stdlib Require Import ZArith List String Ascii Bool Lia.
Import ListNotations.
Local Open Scope Z_scope.
Local Set Warnings "-register-all".

(** ** Python values *)

(** A Python [str]: a sequence of code points. *)
Definition pystr := list Z.

(** Literal ASCII text as a Python [str]. *)
Definition str (s : string) : pystr :=
  map (fun c => Z.of_nat (nat_of_ascii c)) (list_ascii_of_string s).

(** JSON text written with [ ' ] standing for the double quote, so that
    concrete [extra_json] inputs can be written as Rocq string literals. *)
Definition jtext (s : string) : pystr :=
  map (fun c => if Z.eqb c 39 then 34 else c) (str s).

Definition pystr_eqb (a b : pystr) : bool :=
  if list_eq_dec Z.eq_dec a b then true else false.

(** [datetime.time] as produced by wagtail's [TimeBlock] (naive, no tzinfo). *)
Record time := mk_time {
  hour : Z; minute : Z; second : Z; microsecond : Z }.

Definition time_eqb (t u : time) : bool :=
  Z.eqb (hour t) (hour u) && Z.eqb (minute t) (minute u)
  && Z.eqb (second t) (second u) && Z.eqb (microsecond t) (microsecond u).

(** The Python values that reach the projectors. A [float] is kept as its
    JSON source text ([NaN], [Infinity], [-Infinity] included). *)
Inductive pyval : Type :=
| PNone
| PBool (b : bool)
| PInt (z : Z)
| PFloat (lexeme : pystr)
| PStr (s : pystr)
| PList (xs : list pyval)
| PDict (kvs : list (pyval * pyval))
| PTime (t : time).

(** A [dict]: its items in insertion order. *)
Definition pydict := list (pyval * pyval).

(** [hash(v)] succeeds: everything but [list] and [dict]. *)
Definition hashable (v : pyval) : bool :=
  match v with
  | PList _ | PDict _ => false
  | _ => true
  end.

Definition num_of (v : pyval) : option Z :=
  match v with
  | PInt z => Some z
  | PBool b => Some (if b then 1 else 0)
  | _ => None
  end.

(** Key equality [==] on hashable values; [True == 1] and [False == 0] as in
    Python. Floats compare by their source text. *)
Definition key_eqb (a b : pyval) : bool :=
  match num_of a, num_of b with
  | Some x, Some y => Z.eqb x y
  | Some _, None | None, Some _ => false
  | None, None =>
      match a, b with
      | PNone, PNone => true
      | PFloat x, PFloat y => pystr_eqb x y
      | PStr x, PStr y => pystr_eqb x y
      | PTime t, PTime u => time_eqb t u
      | _, _ => false
      end
  end.

(** [d[k] = v]: an existing equal key keeps its slot and its key object,
    a new key is appended. *)
Fixpoint dict_set (k v : pyval) (d : pydict) : pydict :=
  match d with
  | [] => [(k, v)]
  | (k', v') :: r => if key_eqb k' k then (k', v) :: r else (k', v') :: dict_set k v r
  end.

(** [d.get(k)]. *)
Fixpoint dict_get (k : pyval) (d : pydict) : option pyval :=
  match d with
  | [] => None
  | (k', v) :: r => if key_eqb k' k then Some v else dict_get k r
  end.

(** A string key. *)
Definition K (s : string) : pyval := PStr (str s).

(** ** Exceptions and the in-place update monad *)

Inductive exc : Type :=
| JSONDecodeError
| TypeError
| ValueError
| ValidationError.

Inductive res (A : Type) : Type :=
| Ok (a : A)
| Err (e : exc).
Arguments Ok {A} a.
Arguments Err {A} e.

(** A computation on a mutable [dict]: on an exception the dictionary keeps
    whatever mutations happened before it. *)
Definition M (A : Type) := pydict -> res A * pydict.

Definition ret {A} (a : A) : M A := fun d => (Ok a, d).
Definition raise {A} (x : exc) : M A := fun d => (Err x, d).
Definition bind {A B} (m : M A) (k : A -> M B) : M B :=
  fun d => match m d with
           | (Ok a, d') => k a d'
           | (Err x, d') => (Err x, d')
           end.
Definition lift {A} (r : res A) : M A :=
  match r with Ok a => ret a | Err x => raise x end.

Notation "x <- m ;; k" := (bind m (fun x => k))
  (at level 61, m at next level, right associativity).
Notation "m ;; k" := (bind m (fun _ => k)) (at level 61, right associativity).

(** [PyDict_SetItem]: [TypeError] on an unhashable key. *)
Definition setitem (k v : pyval) : M unit :=
  fun d => if hashable k then (Ok tt, dict_set k v d) else (Err TypeError, d).

(** [PyDict_Merge] of an exact [dict]. *)
Fixpoint merge_items (kvs : pydict) : M unit :=
  match kvs with
  | [] => ret tt
  | (k, v) :: r => setitem k v ;; merge_items r
  end.

(** [PySequence_Fast]: the items of an iterable, [None] for a value that is
    not iterable. Iterating a [str] gives its one-character strings,
    iterating a [dict] gives its keys. *)
Definition seq_fast (x : pyval) : option (list pyval) :=
  match x with
  | PList xs => Some xs
  | PStr s => Some (map (fun c => PStr [c]) s)
  | PDict kvs => Some (map fst kvs)
  | _ => None
  end.

(** [PyDict_MergeFromSeq2]: every element must be a sequence of length 2;
    the pairs are stored one by one. *)
Fixpoint merge_from_seq2 (items : list pyval) : M unit :=
  match items with
  | [] => ret tt
  | it :: r =>
      match seq_fast it with
      | None => raise TypeError
      | Some [k; v] => setitem k v ;; merge_from_seq2 r
      | Some _ => raise ValueError
      end
  end.

(** [d.update(arg)] ([dict_update_arg]): a [dict] is merged, anything else is
    iterated as a sequence of key/value pairs, [TypeError] if not iterable. *)
Definition dict_update (arg : pyval) : M unit :=
  match arg with
  | PDict kvs => merge_items kvs
  | _ =>
      match seq_fast arg with
      | Some items => merge_from_seq2 items
      | None => raise TypeError
      end
  end.

(** ** [json.loads] *)

Definition QUOTE := 34.      (* the double quote *)
Definition BACKSLASH := 92.  (* the backslash *)

Definition is_ws (c : Z) : bool :=
  Z.eqb c 32 || Z.eqb c 9 || Z.eqb c 10 || Z.eqb c 13.

Fixpoint skip_ws (s : list Z) : list Z :=
  match s with
  | c :: r => if is_ws c then skip_ws r else s
  | [] => []
  end.

Definition is_digit (c : Z) : bool := (48 <=? c) && (c <=? 57).

(** The rest of [s] after the character [c], if [s] starts with it. *)
Definition after (c : Z) (s : list Z) : option (list Z) :=
  match s with
  | c' :: r => if Z.eqb c' c then Some r else None
  | [] => None
  end.

(** The rest of [s] after the prefix [p], if [s] starts with it. *)
Fixpoint after_prefix (p s : list Z) : option (list Z) :=
  match p, s with
  | [], _ => Some s
  | c :: p', c' :: s' => if Z.eqb c c' then after_prefix p' s' else None
  | _ :: _, [] => None
  end.

Fixpoint span_digits (s : list Z) : list Z * list Z :=
  match s with
  | c :: r => if is_digit c then let (ds, r') := span_digits r in (c :: ds, r') else ([], s)
  | [] => ([], [])
  end.

Definition digits_value (ds : list Z) : Z :=
  fold_left (fun a d => a * 10 + (d - 48)) ds 0.

(** [_match_number_unicode]: an optional minus, then [0] or a nonzero digit
    and more digits, then an optional fraction (a dot and at least one digit),
    then an optional exponent ([e] or [E], an optional sign, digits); an [int] without fraction and exponent, a [float] otherwise; an exponent
    marker without digits is left unread. *)
Definition match_number (s : list Z) : option (pyval * list Z) :=
  let '(neg, s1) := match s with
                    | c :: r => if Z.eqb c 45 then (true, r) else (false, s)
                    | [] => (false, s)
                    end in
  let int_part :=
    match s1 with
    | c :: r =>
        if Z.eqb c 48 then Some ([c], r)
        else if (49 <=? c) && (c <=? 57) then let (ds, r') := span_digits r in Some (c :: ds, r')
        else None
    | [] => None
    end in
  match int_part with
  | None => None
  | Some (ids, r1) =>
      let '(frac, r2) :=
        match r1 with
        | c :: d :: t =>
            if Z.eqb c 46 && is_digit d
            then let (ds, t') := span_digits (d :: t) in (Some (c :: ds), t')
            else (None, r1)
        | _ => (None, r1)
        end in
      let '(ex, r3) :=
        match r2 with
        | e :: t =>
            if Z.eqb e 101 || Z.eqb e 69 then
              let '(sg, t1) := match t with
                               | c :: t' => if Z.eqb c 43 || Z.eqb c 45 then ([c], t') else ([], t)
                               | [] => ([], t)
                               end in
              match span_digits t1 with
              | ([], _) => (None, r2)
              | (ds, t2) => (Some (e :: sg ++ ds), t2)
              end
            else (None, r2)
        | [] => (None, r2)
        end in
      let sign := if neg then [45] else [] in
      match frac, ex with
      | None, None => Some (PInt ((if neg then -1 else 1) * digits_value ids), r3)
      | _, _ =>
          Some (PFloat (sign ++ ids ++ match frac with Some f => f | None => [] end
                                  ++ match ex with Some x => x | None => [] end), r3)
      end
  end.

Definition hex_value (c : Z) : option Z :=
  if (48 <=? c) && (c <=? 57) then Some (c - 48)
  else if (97 <=? c) && (c <=? 102) then Some (c - 87)
  else if (65 <=? c) && (c <=? 70) then Some (c - 55)
  else None.

(** Four hex digits of a [\uXXXX] escape. *)
Definition decode_u4 (s : list Z) : option (Z * list Z) :=
  match s with
  | a :: b :: c :: d :: r =>
      match hex_value a, hex_value b, hex_value c, hex_value d with
      | Some x, Some y, Some z, Some w => Some (((x * 16 + y) * 16 + z) * 16 + w, r)
      | _, _, _, _ => None
      end
  | _ => None
  end.

Definition simple_escape (c : Z) : option Z :=
  if Z.eqb c QUOTE then Some QUOTE
  else if Z.eqb c BACKSLASH then Some BACKSLASH
  else if Z.eqb c 47 then Some 47
  else if Z.eqb c 98 then Some 8
  else if Z.eqb c 102 then Some 12
  else if Z.eqb c 110 then Some 10
  else if Z.eqb c 114 then Some 13
  else if Z.eqb c 116 then Some 9
  else None.

(** [\uXXXX] after the [\u]: a high surrogate followed by a [\u] escape must
    be followed by four hex digits; a low surrogate there is joined to it. *)
Definition unicode_escape (s : list Z) : option (Z * list Z) :=
  match decode_u4 s with
  | None => None
  | Some (u, r) =>
      if (55296 <=? u) && (u <=? 56319) then
        match r with
        | b :: c :: r' =>
            if Z.eqb b BACKSLASH && Z.eqb c 117 then
              match decode_u4 r' with
              | None => None
              | Some (u2, r2) =>
                  if (56320 <=? u2) && (u2 <=? 57343)
                  then Some (65536 + Z.lor (Z.shiftl (u - 55296) 10) (u2 - 56320), r2)
                  else Some (u, r)
              end
            else Some (u, r)
        | _ => Some (u, r)
        end
      else Some (u, r)
  end.

(** [scanstring_unicode] with [strict=True], from after the opening quote. *)
Fixpoint scanstring_loop (n : nat) (acc : list Z) (s : list Z) : option (pystr * list Z) :=
  match n with
  | O => None
  | S n' =>
      match s with
      | [] => None
      | c :: r =>
          if Z.eqb c QUOTE then Some (rev acc, r)
          else if Z.eqb c BACKSLASH then
            match r with
            | [] => None
            | e :: r' =>
                if Z.eqb e 117 then
                  match unicode_escape r' with
                  | Some (u, r'') => scanstring_loop n' (u :: acc) r''
                  | None => None
                  end
                else
                  match simple_escape e with
                  | Some x => scanstring_loop n' (x :: acc) r'
                  | None => None
                  end
            end
          else if c <=? 31 then None
          else scanstring_loop n' (c :: acc) r
      end
  end.

Definition scanstring (s : list Z) : option (pystr * list Z) :=
  scanstring_loop (S (List.length s)) [] s.

(** The named constants of [scan_once_unicode]. *)
Definition constants : list (pystr * pyval) :=
  [(str "null", PNone); (str "true", PBool true); (str "false", PBool false);
   (str "NaN", PFloat (str "NaN")); (str "Infinity", PFloat (str "Infinity"));
   (str "-Infinity", PFloat (str "-Infinity"))].

Fixpoint match_constant (cs : list (pystr * pyval)) (s : list Z) : option (pyval * list Z) :=
  match cs with
  | [] => None
  | (p, v) :: cs' =>
      match after_prefix p s with
      | Some r => Some (v, r)
      | None => match_constant cs' s
      end
  end.

(** [scan_once_unicode], [_parse_array_unicode] and [_parse_object_unicode];
    [n] bounds the recursion. [None] is a [JSONDecodeError]. *)
Fixpoint scan_once (n : nat) (s : list Z) {struct n} : option (pyval * list Z) :=
  match n with
  | O => None
  | S n' =>
      match s with
      | [] => None
      | c :: r =>
          if Z.eqb c QUOTE then
            match scanstring r with
            | Some (x, r') => Some (PStr x, r')
            | None => None
            end
          else if Z.eqb c 123 then
            let r := skip_ws r in
            match after 125 r with
            | Some r' => Some (PDict [], r')
            | None => parse_members n' [] r
            end
          else if Z.eqb c 91 then
            let r := skip_ws r in
            match after 93 r with
            | Some r' => Some (PList [], r')
            | None => parse_elements n' [] r
            end
          else
            match match_constant constants s with
            | Some vr => Some vr
            | None => match_number s
            end
      end
  end
with parse_elements (n : nat) (acc : list pyval) (s : list Z) {struct n} : option (pyval * list Z) :=
  match n with
  | O => None
  | S n' =>
      match scan_once n' s with
      | None => None
      | Some (v, r) =>
          let r := skip_ws r in
          match after 93 r with
          | Some r' => Some (PList (rev (v :: acc)), r')
          | None =>
              match after 44 r with
              | Some r' => parse_elements n' (v :: acc) (skip_ws r')
              | None => None
              end
          end
      end
  end
with parse_members (n : nat) (acc : pydict) (s : list Z) {struct n} : option (pyval * list Z) :=
  match n with
  | O => None
  | S n' =>
      match after QUOTE s with
      | None => None
      | Some s1 =>
          match scanstring s1 with
          | None => None
          | Some (k, r1) =>
              match after 58 (skip_ws r1) with
              | None => None
              | Some r2 =>
                  match scan_once n' (skip_ws r2) with
                  | None => None
                  | Some (v, r3) =>
                      let acc := dict_set (PStr k) v acc in
                      let r3 := skip_ws r3 in
                      match after 125 r3 with
                      | Some r4 => Some (PDict acc, r4)
                      | None =>
                          match after 44 r3 with
                          | Some r4 => parse_members n' acc (skip_ws r4)
                          | None => None
                          end
                      end
                  end
              end
          end
      end
  end.

(** [json.loads(s)]: a leading BOM is refused; leading and trailing
    whitespace is skipped; anything left over is "Extra data". The bound
    [2 * len(s) + 2] exceeds the nesting and element count of any text. *)
Definition json_loads (s : pystr) : res pyval :=
  match s with
  | c :: _ => if Z.eqb c 65279 then Err JSONDecodeError else
      match scan_once (2 * List.length s + 2)%nat (skip_ws s) with
      | Some (v, r) => match skip_ws r with [] => Ok v | _ => Err JSONDecodeError end
      | None => Err JSONDecodeError
      end
  | [] => Err JSONDecodeError
  end.

(** ** [MultiSelectBlock]: Django's [MultipleChoiceField] *)

(** The field built by [MultiSelectBlock.__init__]: [(value, label)] choices
    and the [required] flag. *)
Record MultipleChoiceField := mk_field {
  required : bool;
  choices : list (pystr * pystr) }.

(** [ChoiceField.valid_value] for a [str] value and flat [str] choices:
    [value == k or str(value) == str(k)]. *)
Definition valid_value (f : MultipleChoiceField) (value : pystr) : bool :=
  existsb (fun kv => pystr_eqb value (fst kv)) (choices f).

(** [MultipleChoiceField.validate]. *)
Definition validate (f : MultipleChoiceField) (value : list pystr) : res unit :=
  if required f && match value with [] => true | _ => false end
  then Err ValidationError
  else if forallb (valid_value f) value then Ok tt else Err ValidationError.

Definition weekdays : list pystr :=
  map str ["Monday"; "Tuesday"; "Wednesday"; "Thursday"; "Friday"; "Saturday"; "Sunday"]%string.

(** [OpenHoursBlock.days]: required, the seven weekdays (the labels are
    [gettext_lazy] of the same words; only the values are checked). *)
Definition days_field : MultipleChoiceField :=
  mk_field true (map (fun d => (d, d)) weekdays).

(** ** [OpenHoursValue.struct_dict] *)

Record OpenHoursEntry := mk_hours {
  days : list pystr;
  start_time : time;
  end_time : time }.

Definition struct_dict_hours (v : OpenHoursEntry) : pydict :=
  [(K "@type", PStr (str "OpeningHoursSpecification"));
   (K "dayOfWeek", PList (map PStr (days v)));
   (K "opens", PTime (start_time v));
   (K "closes", PTime (end_time v))].

(** ** [StructuredDataActionValue.struct_dict] *)

(** The block's values: [ChoiceBlock], [URLBlock], [CharBlock] and
    [RawHTMLBlock] all yield a [str] ([""] when left blank). *)
Record ActionEntry := mk_action {
  action_type : pystr;
  target : pystr;
  query : pystr;
  language : pystr;
  result_type : pystr;
  result_name : pystr;
  extra_json : pystr }.

(** Truth value of a [str]. *)
Definition truthy (s : pystr) : bool :=
  match s with [] => false | _ => true end.

Definition action_platforms : pyval :=
  PList [PStr (str "http://schema.org/DesktopWebPlatform");
         PStr (str "http://schema.org/IOSPlatform");
         PStr (str "http://schema.org/AndroidPlatform")].

(** [sd_dict] as built by the [if]/[else] on [action_type]. *)
Definition base_dict (v : ActionEntry) : pydict :=
  if pystr_eqb (action_type v) (str "SearchAction") then
    [(K "@type", PStr (action_type v));
     (K "target", PStr (target v));
     (K "query", PStr (query v))]
  else
    [(K "@type", PStr (action_type v));
     (K "target", PDict [(K "@type", PStr (str "EntryPoint"));
                         (K "urlTemplate", PStr (target v));
                         (K "inLanguage", PStr (language v));
                         (K "actionPlatform", action_platforms)])].

Definition result_dict (v : ActionEntry) : pyval :=
  PDict [(K "result", PDict [(K "@type", PStr (result_type v));
                             (K "name", PStr (result_name v))])].

(** The two [sd_dict.update(...)] statements. *)
Definition updates (v : ActionEntry) : M unit :=
  (if truthy (result_type v) then dict_update (result_dict v) else ret tt) ;;
  (if truthy (extra_json v) then
     x <- lift (json_loads (extra_json v)) ;; dict_update x
   else ret tt).

(** The property [struct_dict]: [sd_dict] is a local, so an exception
    propagates and the caller receives no dictionary. *)
Definition struct_dict_action (v : ActionEntry) : res pydict :=
  match updates v (base_dict v) with
  | (Ok _, d) => Ok d
  | (Err x, _) => Err x
  end.

(** ** Derived notions used to state the properties *)

(** The dictionary after Steps 1 and 2 ([sd_dict] before [extra_json]). *)
Definition step12 (v : ActionEntry) : pydict :=
  if truthy (result_type v)
  then dict_set (K "result") (PDict [(K "@type", PStr (result_type v));
                                     (K "name", PStr (result_name v))]) (base_dict v)
  else base_dict v.

(** Storing a list of pairs one after the other. *)
Definition dict_merge (d : pydict) (ps : list (pyval * pyval)) : pydict :=
  fold_left (fun acc p => dict_set (fst p) (snd p) acc) ps d.

(** An element of an update sequence read as a key/value pair. *)
Definition pair_of (it : pyval) : option (pyval * pyval) :=
  match seq_fast it with
  | Some [k; x] => Some (k, x)
  | _ => None
  end.

Definition pair_ok (it : pyval) : bool :=
  match pair_of it with
  | Some (k, _) => hashable k
  | None => false
  end.

(** [d.update(x)] goes through without an exception. *)
Definition update_accepts (x : pyval) : bool :=
  match x with
  | PDict kvs => forallb (fun p => hashable (fst p)) kvs
  | _ => match seq_fast x with
         | Some items => forallb pair_ok items
         | None => false
         end
  end.

(** The pairs [d.update(x)] stores, in order. *)
Definition overlay_pairs (x : pyval) : list (pyval * pyval) :=
  match x with
  | PDict kvs => kvs
  | _ => match seq_fast x with
         | Some items => flat_map (fun it => match pair_of it with
                                             | Some p => [p]
                                             | None => []
                                             end) items
         | None => []
         end
  end.

(** No two keys of a dictionary are equal. *)
Fixpoint keys_unique (d : pydict) : Prop :=
  match d with
  | [] => True
  | (k, _) :: r => dict_get k r = None /\ keys_unique r
  end.

Definition set_query (v : ActionEntry) (q : pystr) : ActionEntry :=
  mk_action (action_type v) (target v) q (language v) (result_type v)
            (result_name v) (extra_json v).

Definition set_language (v : ActionEntry) (l : pystr) : ActionEntry :=
  mk_action (action_type v) (target v) (query v) l (result_type v)
            (result_name v) (extra_json v).

Definition set_result_name (v : ActionEntry) (n : pystr) : ActionEntry :=
  mk_action (action_type v) (target v) (query v) (language v) (result_type v)
            n (extra_json v).

(** The keys of the Step 1-2 dictionary, in order. *)
Definition step12_keys (v : ActionEntry) : list pyval :=
  [K "@type"; K "target"]
  ++ (if pystr_eqb (action_type v) (str "SearchAction") then [K "query"] else [])
  ++ (if truthy (result_type v) then [K "result"] else []).

(** ** [json.dumps] acceptance *)

(** A key [json.dumps] accepts with its defaults: [str], [int], [float],
    [bool] or [None]. *)
Definition json_key (k : pyval) : bool :=
  match k with
  | PStr _ | PInt _ | PFloat _ | PBool _ | PNone => true
  | _ => false
  end.

(** [json.dumps(v)] raises no [TypeError]: every value is a [str], number,
    [bool], [None], [list] or [dict] ([allow_nan] is on by default), every
    [dict] key is a [json_key]; a [datetime.time] is refused. *)
Fixpoint json_ser (v : pyval) : bool :=
  match v with
  | PTime _ => false
  | PList xs =>
      (fix go (l : list pyval) : bool :=
         match l with [] => true | x :: r => json_ser x && go r end) xs
  | PDict kvs =>
      (fix go (l : list (pyval * pyval)) : bool :=
         match l with [] => true | (k, x) :: r => json_key k && json_ser x && go r end) kvs
  | _ => true
  end.

(** Every key and value of a [dict] is accepted by [json.dumps]. *)
Definition dict_ser (d : pydict) : bool :=
  forallb (fun p => json_key (fst p) && json_ser (snd p)) d.

(** ** [MultiSelectBlock.get_searchable_content]: [[force_str(value)]] *)

Definition hexdigit (n : Z) : Z := if n <? 10 then 48 + n else 87 + n.

(** One character of [unicode_repr] for an ASCII character, [q] being the
    chosen quote. *)
Definition repr_char (q c : Z) : list Z :=
  if Z.eqb c q || Z.eqb c BACKSLASH then [BACKSLASH; c]
  else if Z.eqb c 9 then [BACKSLASH; 116]
  else if Z.eqb c 10 then [BACKSLASH; 110]
  else if Z.eqb c 13 then [BACKSLASH; 114]
  else if (c <? 32) || Z.eqb c 127
  then [BACKSLASH; 120; hexdigit (Z.shiftr c 4); hexdigit (Z.land c 15)]
  else [c].

(** [repr(s)] for a [str] of ASCII characters: single quotes unless [s]
    holds a single quote and no double quote. Non-ASCII text depends on the
    Unicode database ([str.isprintable]) and is outside the model ([None]). *)
Definition py_repr (s : pystr) : option pystr :=
  if forallb (fun c => c <? 128) s then
    let q := if existsb (Z.eqb 39) s && negb (existsb (Z.eqb QUOTE) s) then QUOTE else 39 in
    Some (q :: flat_map (repr_char q) s ++ [q])
  else None.

Fixpoint join (sep : pystr) (l : list pystr) : pystr :=
  match l with
  | [] => []
  | [x] => x
  | x :: r => x ++ sep ++ join sep r
  end.

Fixpoint repr_all (l : list pystr) : option (list pystr) :=
  match l with
  | [] => Some []
  | x :: r => match py_repr x, repr_all r with
              | Some y, Some ys => Some (y :: ys)
              | _, _ => None
              end
  end.

(** [str(value)] of a [list] of [str]: [list_repr]. *)
Definition list_str (l : list pystr) : option pystr :=
  match repr_all l with
  | Some ys => Some (str "[" ++ join (str ", ") ys ++ str "]")
  | None => None
  end.

Definition get_searchable_content (value : list pystr) : option (list pystr) :=
  match list_str value with
  | Some t => Some [t]
  | None => None
  end.

(** ** Key equality *)

Inductive hkey : Type :=
| HNum (z : Z) | HNone | HFloat (s : pystr) | HStr (s : pystr) | HTime (t : time).

Definition hkey_eq_dec (a b : hkey) : {a = b} + {a <> b}.
Proof. decide equality; try apply list_eq_dec; try apply Z.eq_dec.
       decide equality; apply Z.eq_dec. Defined.

Definition canon (v : pyval) : option hkey :=
  match v with
  | PNone => Some HNone
  | PBool b => Some (HNum (if b then 1 else 0))
  | PInt z => Some (HNum z)
  | PFloat s => Some (HFloat s)
  | PStr s => Some (HStr s)
  | PTime t => Some (HTime t)
  | PList _ | PDict _ => None
  end.

Lemma time_eqb_true t u : time_eqb t u = true <-> t = u.
Proof.
  destruct t, u; unfold time_eqb; simpl.
  rewrite !andb_true_iff, !Z.eqb_eq. split.
  - intros [[[-> ->] ->] ->]; reflexivity.
  - intros H; inversion H; auto.
Qed.

Lemma key_eqb_canon a b :
  key_eqb a b = match canon a, canon b with
                | Some x, Some y => if hkey_eq_dec x y then true else false
                | _, _ => false
                end.
Proof.
  unfold key_eqb; destruct a, b; simpl; unfold pystr_eqb;
  repeat match goal with
  | |- context [hkey_eq_dec ?x ?y] => destruct (hkey_eq_dec x y)
  | |- context [list_eq_dec ?d ?x ?y] => destruct (list_eq_dec d x y)
  | |- context [Z.eqb ?x ?y] => destruct (Z.eqb_spec x y)
  | |- context [time_eqb ?x ?y] => destruct (time_eqb x y) eqn:?
  | H : time_eqb _ _ = true |- _ => apply time_eqb_true in H
  | |- context [if ?b then _ else _] => destruct b
  end; subst; try congruence; try reflexivity.
  all: exfalso; match goal with H : _ = false |- _ => rewrite <- Bool.not_true_iff_false, time_eqb_true in H end;
       congruence.
Qed.

Lemma key_eqb_sym a b : key_eqb a b = key_eqb b a.
Proof.
  rewrite !key_eqb_canon.
  destruct (canon a), (canon b); auto.
  destruct (hkey_eq_dec h h0), (hkey_eq_dec h0 h); congruence.
Qed.

Lemma key_eqb_trans a b c : key_eqb a b = true -> key_eqb a c = key_eqb b c.
Proof.
  rewrite !key_eqb_canon.
  destruct (canon a), (canon b), (canon c); try discriminate; auto.
  destruct (hkey_eq_dec h h0); [subst | discriminate]. reflexivity.
Qed.

(** ** Dictionary lemmas *)

Lemma dict_get_congr a b d : key_eqb a b = true -> dict_get a d = dict_get b d.
Proof.
  intros Hab. induction d as [|[k x] r IH]; simpl; auto.
  rewrite (key_eqb_sym k a), (key_eqb_sym k b), (key_eqb_trans _ _ _ Hab), IH.
  reflexivity.
Qed.

Lemma dict_get_set k k' x d :
  dict_get k (dict_set k' x d) = if key_eqb k' k then Some x else dict_get k d.
Proof.
  induction d as [|[k0 x0] r IH]; simpl.
  - destruct (key_eqb k' k); reflexivity.
  - destruct (key_eqb k0 k') eqn:E0; simpl.
    + rewrite (key_eqb_trans _ _ _ E0). destruct (key_eqb k' k); reflexivity.
    + rewrite IH. destruct (key_eqb k0 k) eqn:E1, (key_eqb k' k) eqn:E2; auto.
      rewrite (key_eqb_trans _ _ _ E1), key_eqb_sym, E2 in E0. discriminate.
Qed.

Lemma dict_set_unique k x d : keys_unique d -> keys_unique (dict_set k x d).
Proof.
  induction d as [|[k0 x0] r IH]; simpl; intros U.
  - auto.
  - destruct U as [G U]. destruct (key_eqb k0 k) eqn:E; simpl; split; auto.
    rewrite dict_get_set, G. rewrite key_eqb_sym in E. now rewrite E.
Qed.

Lemma dict_merge_cons d p ps : dict_merge d (p :: ps) = dict_merge (dict_set (fst p) (snd p) d) ps.
Proof. reflexivity. Qed.

(** A key the merged pairs do not name keeps its value. *)
Lemma dict_get_merge_frame k d ps :
  forallb (fun p => negb (key_eqb (fst p) k)) ps = true ->
  dict_get k (dict_merge d ps) = dict_get k d.
Proof.
  revert d. induction ps as [|[k0 x0] ps IH]; intros d H; simpl in *; auto.
  apply andb_true_iff in H as [H1 H2]. rewrite IH by exact H2.
  rewrite dict_get_set. apply negb_true_iff in H1. now rewrite H1.
Qed.

(** Merging a dictionary: its keys win, the others are kept. *)
Lemma dict_get_merge_unique k d kvs :
  keys_unique kvs ->
  dict_get k (dict_merge d kvs) =
  match dict_get k kvs with Some x => Some x | None => dict_get k d end.
Proof.
  revert d. induction kvs as [|[k0 x0] r IH]; intros d U; simpl in *; auto.
  destruct U as [G U]. rewrite IH by exact U. rewrite dict_get_set.
  destruct (key_eqb k0 k) eqn:E.
  - rewrite <- (dict_get_congr _ _ r E), G. reflexivity.
  - destruct (dict_get k r); reflexivity.
Qed.

(** ** [dict.update] *)

Lemma merge_items_ok kvs d :
  forallb (fun p => hashable (fst p)) kvs = true ->
  merge_items kvs d = (Ok tt, dict_merge d kvs).
Proof.
  revert d. induction kvs as [|[k x] r IH]; intros d H; simpl in *; auto.
  apply andb_true_iff in H as [H1 H2].
  unfold bind, setitem. rewrite H1. apply IH, H2.
Qed.

Lemma merge_items_err kvs d :
  forallb (fun p => hashable (fst p)) kvs = false ->
  exists d', merge_items kvs d = (Err TypeError, d').
Proof.
  revert d. induction kvs as [|[k x] r IH]; intros d H; simpl in *; [discriminate|].
  unfold bind, setitem. destruct (hashable k); simpl in H; eauto.
Qed.

Lemma merge_from_seq2_ok items d :
  forallb pair_ok items = true ->
  merge_from_seq2 items d =
  (Ok tt, dict_merge d (flat_map (fun it => match pair_of it with
                                            | Some p => [p]
                                            | None => []
                                            end) items)).
Proof.
  revert d. induction items as [|it r IH]; intros d H; simpl in *; auto.
  apply andb_true_iff in H as [H1 H2]. unfold pair_ok, pair_of in H1 |- *.
  destruct (seq_fast it) as [[|k [|x [|]]]|]; try discriminate.
  unfold bind, setitem. rewrite H1. apply IH, H2.
Qed.

Lemma merge_from_seq2_err items d :
  forallb pair_ok items = false -> exists e d', merge_from_seq2 items d = (Err e, d').
Proof.
  revert d. induction items as [|it r IH]; intros d H; simpl in *; [discriminate|].
  unfold pair_ok, pair_of in H.
  destruct (seq_fast it) as [[|k [|x [|]]]|]; simpl in H; unfold raise; eauto.
  unfold bind, setitem. destruct (hashable k); simpl in H; eauto.
Qed.

Lemma dict_update_ok x d :
  update_accepts x = true -> dict_update x d = (Ok tt, dict_merge d (overlay_pairs x)).
Proof.
  unfold update_accepts, dict_update, overlay_pairs; intros H.
  destruct x; try discriminate; try (apply merge_items_ok; exact H);
  apply merge_from_seq2_ok; exact H.
Qed.

Lemma dict_update_err x d :
  update_accepts x = false -> exists e d', dict_update x d = (Err e, d').
Proof.
  unfold update_accepts, dict_update; intros H.
  destruct x; simpl in *; unfold raise; eauto;
  try (apply merge_from_seq2_err; exact H).
  destruct (merge_items_err kvs d H) as [d' E]; eauto.
Qed.

(** ** The shape of [struct_dict] *)

Lemma json_loads_empty : json_loads [] = Err JSONDecodeError.
Proof. reflexivity. Qed.

Lemma updates_eq v :
  updates v (base_dict v) =
  if truthy (extra_json v) then
    match json_loads (extra_json v) with
    | Ok x => dict_update x (step12 v)
    | Err e => (Err e, step12 v)
    end
  else (Ok tt, step12 v).
Proof.
  unfold updates, step12, bind.
  destruct (truthy (result_type v)); cbn;
  destruct (truthy (extra_json v)); cbn; auto;
  destruct (json_loads (extra_json v)); reflexivity.
Qed.

Lemma struct_dict_ok_iff v d :
  struct_dict_action v = Ok d <->
  (truthy (extra_json v) = false /\ d = step12 v) \/
  (exists x, json_loads (extra_json v) = Ok x /\ update_accepts x = true /\
             d = dict_merge (step12 v) (overlay_pairs x)).
Proof.
  unfold struct_dict_action. rewrite updates_eq.
  destruct (truthy (extra_json v)) eqn:T.
  - destruct (json_loads (extra_json v)) as [x|e] eqn:J.
    + destruct (update_accepts x) eqn:A.
      * rewrite dict_update_ok by exact A. split.
        -- intros H; inversion H; subst; right; eauto.
        -- intros [[F _]|[x' [J' [_ ->]]]]; [discriminate|]. congruence.
      * destruct (dict_update_err x (step12 v) A) as [e [d' ->]]. split.
        -- discriminate.
        -- intros [[F _]|[x' [J' [A' _]]]]; [discriminate|]. congruence.
    + split; [discriminate|].
      intros [[F _]|[x' [J' _]]]; congruence.
  - split.
    + intros H; inversion H; subst; left; auto.
    + intros [[_ ->]|[x [J _]]]; auto.
      destruct (extra_json v); [rewrite json_loads_empty in J|]; discriminate.
Qed.

Lemma struct_dict_err_iff v :
  (exists e, struct_dict_action v = Err e) <->
  truthy (extra_json v) = true /\
  (forall x, json_loads (extra_json v) = Ok x -> update_accepts x = false).
Proof.
  unfold struct_dict_action. rewrite updates_eq.
  destruct (truthy (extra_json v)) eqn:T.
  - destruct (json_loads (extra_json v)) as [x|e] eqn:J.
    + destruct (update_accepts x) eqn:A.
      * rewrite dict_update_ok by exact A. split.
        -- intros [e H]; discriminate.
        -- intros [_ H]. rewrite (H x eq_refl) in A. discriminate.
      * destruct (dict_update_err x (step12 v) A) as [e [d' ->]]. split.
        -- intros _. split; auto. intros x' H; inversion H; subst; auto.
        -- eauto.
    + split; eauto. intros _; split; auto; discriminate.
  - split; [intros [e H]; discriminate | intros [F _]; discriminate].
Qed.

(** A well-formed [dict]: distinct, hashable keys. *)
Definition dict_wf (d : pydict) : Prop :=
  keys_unique d /\ forallb (fun p => hashable (fst p)) d = true.

Lemma dict_set_wf k x d : hashable k = true -> dict_wf d -> dict_wf (dict_set k x d).
Proof.
  intros Hk [U Hd]. split; [apply dict_set_unique, U|].
  induction d as [|[k0 x0] r IH]; simpl in *; [now rewrite Hk|].
  apply andb_true_iff in Hd as [H1 H2]. destruct U as [_ U].
  destruct (key_eqb k0 k); simpl; rewrite H1; simpl; auto.
Qed.

(** [json.loads] builds an object with [d[k] = v] on string keys. *)
Lemma parse_members_wf n acc s x r :
  dict_wf acc -> parse_members n acc s = Some (x, r) ->
  match x with PDict kvs => dict_wf kvs | _ => True end.
Proof.
  revert acc s. induction n as [|n IH]; intros acc s U H; simpl in H; [discriminate|].
  destruct (after QUOTE s); [|discriminate].
  destruct (scanstring l) as [[k r1]|]; [|discriminate].
  destruct (after 58 (skip_ws r1)); [|discriminate].
  destruct (scan_once n (skip_ws l0)) as [[y r3]|]; [|discriminate].
  pose proof (dict_set_wf (PStr k) y acc eq_refl U) as U'.
  destruct (after 125 (skip_ws r3)).
  - inversion H; subst. exact U'.
  - destruct (after 44 (skip_ws r3)); [|discriminate].
    exact (IH _ _ U' H).
Qed.

Lemma parse_elements_list n acc s x r :
  parse_elements n acc s = Some (x, r) -> exists l, x = PList l.
Proof.
  revert acc s. induction n as [|n IH]; intros acc s H; simpl in H; [discriminate|].
  destruct (scan_once n s) as [[y r1]|]; [|discriminate].
  destruct (after 93 (skip_ws r1)).
  - inversion H; eauto.
  - destruct (after 44 (skip_ws r1)); [|discriminate]. eapply IH; eauto.
Qed.

Lemma match_constant_not_dict cs s kvs r :
  Forall (fun p => match snd p with PDict _ => False | _ => True end) cs ->
  match_constant cs s <> Some (PDict kvs, r).
Proof.
  induction cs as [|[p y] cs IH]; intros F; simpl; [discriminate|].
  inversion F as [|? ? Fy Fcs]; subst.
  destruct (after_prefix p s).
  - intros H; inversion H; subst. exact Fy.
  - apply IH, Fcs.
Qed.

Lemma match_number_not_dict s kvs r : match_number s <> Some (PDict kvs, r).
Proof.
  unfold match_number.
  repeat match goal with
  | |- context [match ?x with _ => _ end] => destruct x
  end; discriminate.
Qed.

Lemma scan_once_wf n s kvs r :
  scan_once n s = Some (PDict kvs, r) -> dict_wf kvs.
Proof.
  intros E. destruct n as [|n]; [discriminate|]. cbn [scan_once] in E.
  destruct s as [|c s]; [discriminate|].
  destruct (Z.eqb c QUOTE); [destruct (scanstring s) as [[? ?]|]; discriminate|].
  destruct (Z.eqb c 123).
  - destruct (after 125 (skip_ws s)).
    + inversion E; subst. split; [exact I | reflexivity].
    + exact (parse_members_wf _ [] _ _ _ (conj I eq_refl) E).
  - destruct (Z.eqb c 91).
    + destruct (after 93 (skip_ws s)); [discriminate|].
      destruct (parse_elements_list _ _ _ _ _ E). discriminate.
    + exfalso. destruct (match_constant constants (c :: s)) eqn:C.
      * inversion E; subst. refine (match_constant_not_dict _ _ _ _ _ C).
        repeat constructor.
      * exact (match_number_not_dict _ _ _ E).
Qed.

Lemma json_loads_wf s kvs : json_loads s = Ok (PDict kvs) -> dict_wf kvs.
Proof.
  unfold json_loads. destruct s as [|c s]; [discriminate|].
  destruct (Z.eqb c 65279); [discriminate|].
  destruct (scan_once _ (skip_ws (c :: s))) as [[x r]|] eqn:E; [|discriminate].
  destruct (skip_ws r); [|discriminate]. intros H; inversion H; subst.
  exact (scan_once_wf _ _ _ _ E).
Qed.

Lemma pystr_eqb_true a b : pystr_eqb a b = true <-> a = b.
Proof. unfold pystr_eqb. destruct (list_eq_dec Z.eq_dec a b); split; congruence. Qed.

Lemma pystr_eqb_false a b : pystr_eqb a b = false <-> a <> b.
Proof. unfold pystr_eqb. destruct (list_eq_dec Z.eq_dec a b); split; congruence. Qed.

Lemma valid_value_iff f t : valid_value f t = true <-> In t (map fst (choices f)).
Proof.
  unfold valid_value. rewrite existsb_exists, in_map_iff. split.
  - intros [kv [I E]]. apply pystr_eqb_true in E. subst. eauto.
  - intros [kv [E I]]. exists kv. split; auto. apply pystr_eqb_true. auto.
Qed.

(** ** Concrete entries *)

Definition ex_reserve : ActionEntry :=
  mk_action (str "ReserveAction") (str "https://ex.com/book") [] (str "en-US")
            (str "Reservation") (str "Book a table") [].

Definition ex_plain : ActionEntry :=
  mk_action (str "ReserveAction") (str "https://ex.com/book") [] (str "en-US")
            [] (str "Book a table") [].

Definition ex_search : ActionEntry :=
  mk_action (str "SearchAction") (str "http://example.com/search?&q={query}") []
            (str "en-US") [] [] [].

Definition ex_hours : OpenHoursEntry :=
  mk_hours [str "Monday"; str "Tuesday"] (mk_time 9 0 0 0) (mk_time 17 30 0 0).

Definition with_extra (v : ActionEntry) (x : pystr) : ActionEntry :=
  mk_action (action_type v) (target v) (query v) (language v) (result_type v)
            (result_name v) x.

Definition ex_override : ActionEntry :=
  with_extra ex_search (jtext "{'query': 'override'}").

Definition ex_pairs : ActionEntry :=
  with_extra ex_plain (jtext "[['a', 1]]").

(** A failing overlay after one stored pair: [[["a", 1], 5]]. *)
Definition ex_partial : ActionEntry :=
  with_extra ex_plain (jtext "[['a', 1], 5]").

Lemma existsb_false_forallb {A} (p : A -> bool) l :
  existsb p l = false -> forallb (fun x => negb (p x)) l = true.
Proof.
  induction l as [|x l IH]; simpl; auto.
  intros H. apply orb_false_iff in H as [H1 H2]. now rewrite H1, IH.
Qed.

Lemma pairs_accepted ps :
  Forall (fun p => hashable (fst p) = true) ps ->
  update_accepts (PList (map (fun p => PList [fst p; snd p]) ps)) = true /\
  overlay_pairs (PList (map (fun p => PList [fst p; snd p]) ps)) = ps.
Proof.
  unfold update_accepts, overlay_pairs; simpl.
  induction 1 as [|[k x] ps Hk _ [IH1 IH2]]; simpl in *; auto.
  rewrite IH1, IH2. unfold pair_ok, pair_of; simpl. rewrite Hk. auto.
Qed.

(** The Step 1-2 dictionary of a [SearchAction] has no [inLanguage]. *)
Lemma step12_search_no_language v :
  action_type v = str "SearchAction" -> dict_get (K "inLanguage") (step12 v) = None.
Proof.
  intros Ht. unfold step12, base_dict. rewrite Ht.
  destruct (truthy (result_type v)); [rewrite dict_get_set|]; reflexivity.
Qed.

(** The overlay of [[["a", 1], 5]] stores ["a"], then raises [TypeError] on
    [5]: [sd_dict] is left partially merged, [struct_dict] returns nothing. *)
Lemma partial_overlay_discarded :
  exists d', updates ex_partial (base_dict ex_partial) = (Err TypeError, d') /\
             dict_get (K "a") d' = Some (PInt 1) /\
             struct_dict_action ex_partial = Err TypeError.
Proof. eexists. split; [reflexivity|]. split; reflexivity. Qed.

(** ** The claims *)

(** C1: for an action type other than [SearchAction], with no result type
    and no [extra_json], the output is [@type] = the action type and a
    [target] [EntryPoint] object carrying the URL template, the language and
    exactly the three platform URIs, in that order. *)
Theorem action_entry_point_shape v :
  action_type v <> str "SearchAction" -> result_type v = [] -> extra_json v = [] ->
  struct_dict_action v =
  Ok [(K "@type", PStr (action_type v));
      (K "target", PDict [(K "@type", PStr (str "EntryPoint"));
                          (K "urlTemplate", PStr (target v));
                          (K "inLanguage", PStr (language v));
                          (K "actionPlatform",
                           PList [PStr (str "http://schema.org/DesktopWebPlatform");
                                  PStr (str "http://schema.org/IOSPlatform");
                                  PStr (str "http://schema.org/AndroidPlatform")])])].
Proof.
  intros Ht Hr Hx. unfold struct_dict_action. rewrite updates_eq, Hx. simpl.
  unfold step12, base_dict. rewrite Hr. simpl.
  apply pystr_eqb_false in Ht. rewrite Ht. reflexivity.
Qed.

Lemma action_entry_point_shape_witness :
  exists d, struct_dict_action ex_plain = Ok d.
Proof.
  eexists. apply (action_entry_point_shape ex_plain).
  - intros H. vm_compute in H. discriminate H.
  - reflexivity.
  - reflexivity.
Defined.

(** C4: for [SearchAction], with no result type and no [extra_json], the
    output is exactly [@type], the literal [target] string and [query] as
    given, also when [query] is empty. *)
Theorem search_action_shape v :
  action_type v = str "SearchAction" -> result_type v = [] -> extra_json v = [] ->
  struct_dict_action v =
  Ok [(K "@type", PStr (str "SearchAction"));
      (K "target", PStr (target v));
      (K "query", PStr (query v))].
Proof.
  intros Ht Hr Hx. unfold struct_dict_action. rewrite updates_eq, Hx. simpl.
  unfold step12, base_dict. rewrite Hr, Ht. reflexivity.
Qed.

Lemma search_action_shape_witness :
  exists d, struct_dict_action ex_search = Ok d.
Proof.
  eexists. apply (search_action_shape ex_search); reflexivity.
Defined.

Lemma step12_result v :
  dict_get (K "result") (step12 v) =
  if truthy (result_type v)
  then Some (PDict [(K "@type", PStr (result_type v)); (K "name", PStr (result_name v))])
  else None.
Proof.
  unfold step12. destruct (truthy (result_type v)).
  - rewrite dict_get_set. reflexivity.
  - unfold base_dict. destruct (pystr_eqb (action_type v) (str "SearchAction")); reflexivity.
Qed.

(** C5: when [extra_json] names no [result] key, the output has [result]
    exactly when [result_type] is non-empty, and then it is
    [{"@type": result_type, "name": result_name}], [result_name] possibly
    empty. *)
Theorem action_result_key v d :
  struct_dict_action v = Ok d ->
  (forall x, json_loads (extra_json v) = Ok x ->
             forallb (fun p => negb (key_eqb (fst p) (K "result"))) (overlay_pairs x) = true) ->
  dict_get (K "result") d =
  if truthy (result_type v)
  then Some (PDict [(K "@type", PStr (result_type v)); (K "name", PStr (result_name v))])
  else None.
Proof.
  intros H Hx. apply struct_dict_ok_iff in H as [[_ ->]|[x [J [_ ->]]]].
  - apply step12_result.
  - rewrite dict_get_merge_frame by exact (Hx x J). apply step12_result.
Qed.

Lemma action_result_key_witness :
  dict_get (K "result") (step12 ex_reserve) =
  Some (PDict [(K "@type", PStr (str "Reservation")); (K "name", PStr (str "Book a table"))]).
Proof.
  apply (action_result_key ex_reserve (step12 ex_reserve)).
  - reflexivity.
  - intros x H. vm_compute in H. discriminate H.
Defined.

(** C6 (as stated): [opens] is the opening time as an [HH:MM] string. It is
    not: at 09:00 the value stored under [opens] is the [time] object. *)
Lemma opening_hours_opens_not_string :
  dict_get (K "opens") (struct_dict_hours ex_hours) = Some (PTime (mk_time 9 0 0 0)) /\
  dict_get (K "opens") (struct_dict_hours ex_hours) <> Some (PStr (str "09:00")).
Proof.
  split; [reflexivity|]. vm_compute. discriminate.
Qed.

(** C6 (amended): the output is [@type] [OpeningHoursSpecification], the
    [days] list unchanged as [dayOfWeek], and the [start_time] and
    [end_time] time values themselves as [opens] and [closes]; formatting
    them as [H:i] is left to the template. *)
Theorem opening_hours_shape v :
  struct_dict_hours v =
  [(K "@type", PStr (str "OpeningHoursSpecification"));
   (K "dayOfWeek", PList (map PStr (days v)));
   (K "opens", PTime (start_time v));
   (K "closes", PTime (end_time v))] /\
  dict_get (K "dayOfWeek") (struct_dict_hours v) = Some (PList (map PStr (days v))) /\
  dict_get (K "opens") (struct_dict_hours v) = Some (PTime (start_time v)) /\
  dict_get (K "closes") (struct_dict_hours v) = Some (PTime (end_time v)).
Proof. repeat split. Qed.

Lemma forallb_valid_false f sel :
  forallb (valid_value f) sel = false <-> exists t, In t sel /\ ~ In t (map fst (choices f)).
Proof.
  induction sel as [|t sel IH]; simpl.
  - split; [discriminate|]. intros [u [[] _]].
  - rewrite andb_false_iff, IH. split.
    + intros [A|[u [I N]]].
      * exists t. split; auto. rewrite <- valid_value_iff. congruence.
      * exists u. auto.
    + intros [u [[<-|I] N]].
      * left. destruct (valid_value f t) eqn:V; auto. apply valid_value_iff in V. tauto.
      * right. eauto.
Qed.

(** C8: [validate] fails, always with [ValidationError], exactly when the
    field is required and the selection is empty or some selected value is
    not one of the choices; the [days] field is required and its choices are
    the seven weekdays. *)
Theorem multiselect_validate f sel :
  (validate f sel <> Ok tt <->
   (required f = true /\ sel = []) \/ (exists t, In t sel /\ ~ In t (map fst (choices f)))) /\
  (validate f sel = Ok tt \/ validate f sel = Err ValidationError) /\
  required days_field = true /\ map fst (choices days_field) = weekdays.
Proof.
  split; [|split; [|split; reflexivity]].
  - rewrite <- forallb_valid_false. unfold validate.
    destruct (required f) eqn:R, sel as [|t sel]; simpl;
      try destruct (valid_value f t && forallb (valid_value f) sel); firstorder congruence.
  - unfold validate. destruct (required f && _); auto.
    destruct (forallb _ _); auto.
Qed.

(** C2: when [extra_json] parses to an object, the output is the Step 1-2
    dictionary with every key of the object stored over it, last: a key of
    the object wins (also [@type], [target], [result]), any other key keeps
    its Step 1-2 value. *)
Theorem extra_json_overlay v kvs :
  json_loads (extra_json v) = Ok (PDict kvs) ->
  struct_dict_action v = Ok (dict_merge (step12 v) kvs) /\
  (forall k, dict_get k (dict_merge (step12 v) kvs) =
             match dict_get k kvs with Some x => Some x | None => dict_get k (step12 v) end).
Proof.
  intros J. destruct (json_loads_wf _ _ J) as [U Hh]. split.
  - apply struct_dict_ok_iff. right. exists (PDict kvs). auto.
  - intros k. apply dict_get_merge_unique, U.
Qed.

Lemma extra_json_overlay_witness :
  struct_dict_action ex_override =
  Ok (dict_merge (step12 ex_override) [(K "query", PStr (str "override"))]).
Proof.
  refine (proj1 (extra_json_overlay ex_override [(K "query", PStr (str "override"))] _)).
  vm_compute. reflexivity.
Defined.

(** C3 (as stated): an error exactly when [extra_json] is not JSON or not a
    JSON object. The array [[["a", 1]]] is valid JSON, not an object, and
    raises nothing. *)
Lemma extra_json_pairs_no_error :
  json_loads (extra_json ex_pairs) = Ok (PList [PList [K "a"; PInt 1]]) /\
  struct_dict_action ex_pairs =
  Ok (dict_merge (step12 ex_pairs) [(K "a", PInt 1)]).
Proof. split; vm_compute; reflexivity. Qed.

(** C3 (amended): [struct_dict] raises (a [JSONDecodeError] from
    [json.loads], or a [TypeError] or [ValueError] from [dict.update]; there
    is no dedicated error) exactly when [extra_json] is non-empty and either
    is not valid JSON or parses to a value [dict.update] refuses: one that is
    not an object and not a sequence of two-element items with hashable
    first elements. ["not json"] and ["[1,2,3]"] raise, [""] raises nothing
    and leaves the Step 1-2 dictionary. *)
Theorem extra_json_errors v :
  ((exists e, struct_dict_action v = Err e) <->
   extra_json v <> [] /\
   (forall x, json_loads (extra_json v) = Ok x -> update_accepts x = false)) /\
  (extra_json v = jtext "not json" -> struct_dict_action v = Err JSONDecodeError) /\
  (extra_json v = jtext "[1,2,3]" -> struct_dict_action v = Err TypeError) /\
  (extra_json v = [] -> struct_dict_action v = Ok (step12 v)).
Proof.
  split; [|split; [|split]].
  - rewrite struct_dict_err_iff. destruct (extra_json v); simpl.
    + split; intros [H _]; [discriminate | congruence].
    + split; intros [_ H]; split; auto; discriminate.
  - intros H. unfold struct_dict_action. rewrite updates_eq, H. reflexivity.
  - intros H. unfold struct_dict_action. rewrite updates_eq, H. reflexivity.
  - intros H. unfold struct_dict_action. rewrite updates_eq, H. reflexivity.
Qed.

Lemma extra_json_errors_witness :
  struct_dict_action (with_extra ex_plain (jtext "not json")) = Err JSONDecodeError /\
  struct_dict_action (with_extra ex_plain (jtext "[1,2,3]")) = Err TypeError /\
  struct_dict_action ex_plain = Ok (step12 ex_plain) /\
  exists e, struct_dict_action ex_partial = Err e.
Proof.
  split; [|split; [|split]].
  - apply (proj1 (proj2 (extra_json_errors (with_extra ex_plain (jtext "not json"))))).
    reflexivity.
  - apply (proj1 (proj2 (proj2 (extra_json_errors (with_extra ex_plain (jtext "[1,2,3]")))))).
    reflexivity.
  - apply (proj2 (proj2 (proj2 (extra_json_errors ex_plain)))). reflexivity.
  - apply (proj2 (proj1 (extra_json_errors ex_partial))). split.
    + discriminate.
    + intros x H. vm_compute in H. injection H as <-. reflexivity.
Defined.

(** C7: an exception in the updates reaches the caller as that exception,
    never as the partly updated [sd_dict]; a returned dictionary is the
    Step 1-2 dictionary with the whole overlay stored. *)
Theorem no_partial_result v :
  (forall e d', updates v (base_dict v) = (Err e, d') -> struct_dict_action v = Err e) /\
  (forall d, struct_dict_action v = Ok d ->
             (extra_json v = [] /\ d = step12 v) \/
             (exists x, json_loads (extra_json v) = Ok x /\ update_accepts x = true /\
                        d = dict_merge (step12 v) (overlay_pairs x))).
Proof.
  split.
  - intros e d' H. unfold struct_dict_action. rewrite H. reflexivity.
  - intros d H. apply struct_dict_ok_iff in H as [[T ->]|H]; auto.
    left. split; auto. destruct (extra_json v); [reflexivity | discriminate].
Qed.

Lemma no_partial_result_witness :
  struct_dict_action ex_partial = Err TypeError.
Proof.
  destruct partial_overlay_discarded as [d' [H _]].
  exact (proj1 (no_partial_result ex_partial) TypeError d' H).
Defined.

(** C9: with [extra_json] fixed, an action other than [SearchAction] does not
    depend on [query], and a [SearchAction] does not depend on [language]; a
    [SearchAction] output has an [inLanguage] key only when [extra_json]
    itself stores one. *)
Theorem branch_noninterference v q l :
  (action_type v <> str "SearchAction" ->
   struct_dict_action (set_query v q) = struct_dict_action v) /\
  (action_type v = str "SearchAction" ->
   struct_dict_action (set_language v l) = struct_dict_action v /\
   (forall d, struct_dict_action v = Ok d -> dict_get (K "inLanguage") d <> None ->
    exists x, json_loads (extra_json v) = Ok x /\
              existsb (fun p => key_eqb (fst p) (K "inLanguage")) (overlay_pairs x) = true)).
Proof.
  split.
  - intros Ht. unfold struct_dict_action.
    replace (base_dict (set_query v q)) with (base_dict v).
    + reflexivity.
    + unfold base_dict. simpl. apply pystr_eqb_false in Ht. rewrite Ht. reflexivity.
  - intros Ht. split.
    + unfold struct_dict_action.
      replace (base_dict (set_language v l)) with (base_dict v).
      * reflexivity.
      * unfold base_dict. simpl. rewrite Ht. reflexivity.
    + intros d H N. apply struct_dict_ok_iff in H as [[_ ->]|[x [J [_ ->]]]].
      * exfalso. apply N, step12_search_no_language, Ht.
      * exists x. split; auto.
        destruct (existsb _ (overlay_pairs x)) eqn:E; auto. exfalso. apply N.
        rewrite dict_get_merge_frame by exact (existsb_false_forallb _ _ E).
        apply step12_search_no_language, Ht.
Qed.

Lemma branch_noninterference_witness :
  struct_dict_action (set_query ex_plain (str "q")) = struct_dict_action ex_plain /\
  struct_dict_action (set_language ex_search (str "fr-FR")) = struct_dict_action ex_search.
Proof.
  split.
  - apply (proj1 (branch_noninterference ex_plain (str "q") [])).
    intros H. vm_compute in H. discriminate H.
  - apply (proj2 (branch_noninterference ex_search [] (str "fr-FR"))). reflexivity.
Defined.

(** C10: an [extra_json] that is a JSON array of two-element [key, value]
    arrays with hashable keys (such as [[["a", 1]]]) raises nothing: its
    pairs are stored over the Step 1-2 dictionary as top-level keys. *)
Theorem pair_list_overlay v ps :
  Forall (fun p => hashable (fst p) = true) ps ->
  json_loads (extra_json v) = Ok (PList (map (fun p => PList [fst p; snd p]) ps)) ->
  struct_dict_action v = Ok (dict_merge (step12 v) ps).
Proof.
  intros F J. destruct (pairs_accepted ps F) as [A P].
  apply struct_dict_ok_iff. right. eexists. split; [exact J|]. rewrite P. auto.
Qed.

Lemma pair_list_overlay_witness :
  struct_dict_action ex_pairs = Ok (dict_merge (step12 ex_pairs) [(K "a", PInt 1)]).
Proof.
  apply (pair_list_overlay ex_pairs [(K "a", PInt 1)]).
  - repeat constructor.
  - vm_compute. reflexivity.
Defined.

(** ** Further properties of [blocks.py] *)

Lemma json_ser_list xs : json_ser (PList xs) = forallb json_ser xs.
Proof. induction xs as [|x xs IH]; simpl in *; [reflexivity|]. now rewrite IH. Qed.

Lemma json_ser_dict kvs : json_ser (PDict kvs) = dict_ser kvs.
Proof.
  unfold dict_ser. induction kvs as [|[k x] kvs IH]; simpl in *; [reflexivity|].
  now rewrite IH.
Qed.

Lemma forallb_rev {A} (f : A -> bool) l : forallb f (rev l) = forallb f l.
Proof.
  induction l as [|x l IH]; simpl; auto.
  rewrite forallb_app, IH. simpl. now rewrite andb_true_r, andb_comm.
Qed.

Lemma dict_set_ser k x d :
  json_key k && json_ser x = true -> dict_ser d = true -> dict_ser (dict_set k x d) = true.
Proof.
  unfold dict_ser. intros Hkx. induction d as [|[k0 x0] r IH]; simpl; intros H.
  - now rewrite Hkx.
  - apply andb_true_iff in H as [H1 H2]. apply andb_true_iff in H1 as [H0 H0'].
    apply andb_true_iff in Hkx as [Hk Hx].
    destruct (key_eqb k0 k); simpl.
    + now rewrite H0, Hx, H2.
    + rewrite H0, H0', IH by (auto; now rewrite Hk, Hx). reflexivity.
Qed.

Lemma dict_merge_ser d ps :
  dict_ser ps = true -> dict_ser d = true -> dict_ser (dict_merge d ps) = true.
Proof.
  revert d. induction ps as [|[k x] ps IH]; intros d Hp Hd; simpl in *; auto.
  unfold dict_ser in Hp; simpl in Hp. apply andb_true_iff in Hp as [H1 H2].
  apply IH; [exact H2|]. apply dict_set_ser; assumption.
Qed.

Lemma match_constant_ser cs s v r :
  forallb (fun p => json_ser (snd p)) cs = true ->
  match_constant cs s = Some (v, r) -> json_ser v = true.
Proof.
  induction cs as [|[p y] cs IH]; simpl; [discriminate|].
  intros H. apply andb_true_iff in H as [H1 H2].
  destruct (after_prefix p s); [intros E; inversion E; subst; exact H1|].
  apply IH, H2.
Qed.

Lemma match_number_ser s v r : match_number s = Some (v, r) -> json_ser v = true.
Proof.
  unfold match_number.
  repeat match goal with
  | |- context [match ?x with _ => _ end] => destruct x
  end; intros E; inversion E; reflexivity.
Qed.

(** Everything [json.loads] builds is accepted by [json.dumps]. *)
Lemma parser_ser (n : nat) :
  (forall s v r, scan_once n s = Some (v, r) -> json_ser v = true) /\
  (forall acc s v r, forallb json_ser acc = true ->
                     parse_elements n acc s = Some (v, r) -> json_ser v = true) /\
  (forall acc s v r, dict_ser acc = true ->
                     parse_members n acc s = Some (v, r) -> json_ser v = true).
Proof.
  induction n as [|n [IH1 [IH2 IH3]]].
  - repeat split; intros; discriminate.
  - split; [|split].
    + intros s v r E. cbn [scan_once] in E.
      destruct s as [|c s]; [discriminate|].
      destruct (Z.eqb c QUOTE).
      { destruct (scanstring s) as [[x r']|]; inversion E; reflexivity. }
      destruct (Z.eqb c 123).
      { destruct (after 125 (skip_ws s)); [inversion E; reflexivity|].
        exact (IH3 [] _ _ _ eq_refl E). }
      destruct (Z.eqb c 91).
      { destruct (after 93 (skip_ws s)); [inversion E; reflexivity|].
        exact (IH2 [] _ _ _ eq_refl E). }
      destruct (match_constant constants (c :: s)) as [[y r']|] eqn:C.
      { inversion E; subst. exact (match_constant_ser constants _ _ _ eq_refl C). }
      exact (match_number_ser _ _ _ E).
    + intros acc s v r Hacc E. cbn [parse_elements] in E.
      destruct (scan_once n s) as [[y r1]|] eqn:S; [|discriminate].
      pose proof (IH1 _ _ _ S) as Hy.
      destruct (after 93 (skip_ws r1)).
      * inversion E; subst. rewrite json_ser_list. simpl rev. rewrite forallb_app, forallb_rev.
        simpl. now rewrite Hy, Hacc.
      * destruct (after 44 (skip_ws r1)); [|discriminate].
        refine (IH2 (y :: acc) _ _ _ _ E). simpl. now rewrite Hy, Hacc.
    + intros acc s v r Hacc E. cbn [parse_members] in E.
      destruct (after QUOTE s); [|discriminate].
      destruct (scanstring l) as [[k r1]|]; [|discriminate].
      destruct (after 58 (skip_ws r1)); [|discriminate].
      destruct (scan_once n (skip_ws l0)) as [[y r3]|] eqn:S; [|discriminate].
      pose proof (IH1 _ _ _ S) as Hy.
      assert (Hacc' : dict_ser (dict_set (PStr k) y acc) = true)
        by (apply dict_set_ser; auto; simpl; now rewrite Hy).
      destruct (after 125 (skip_ws r3)).
      * inversion E; subst. rewrite json_ser_dict. exact Hacc'.
      * destruct (after 44 (skip_ws r3)); [|discriminate].
        exact (IH3 _ _ _ _ Hacc' E).
Qed.

Lemma json_loads_ser s x : json_loads s = Ok x -> json_ser x = true.
Proof.
  unfold json_loads. destruct s as [|c s]; [discriminate|].
  destruct (Z.eqb c 65279); [discriminate|].
  destruct (scan_once _ (skip_ws (c :: s))) as [[y r]|] eqn:E; [|discriminate].
  destruct (skip_ws r); [|discriminate]. intros H; inversion H; subst.
  exact (proj1 (parser_ser _) _ _ _ E).
Qed.

Lemma seq_fast_ser it l : json_ser it = true -> seq_fast it = Some l -> forallb json_ser l = true.
Proof.
  destruct it; intros H E; cbn [seq_fast] in E; inversion E; subst; clear E.
  - induction s; simpl; auto.
  - rewrite <- json_ser_list. exact H.
  - rewrite json_ser_dict in H. unfold dict_ser in H.
    induction kvs as [|[k x] kvs IH]; simpl in *; auto.
    apply andb_true_iff in H as [H1 H2]. apply andb_true_iff in H1 as [Hk _].
    rewrite IH by exact H2. destruct k; try discriminate; reflexivity.
Qed.

Lemma hashable_ser_key k : hashable k = true -> json_ser k = true -> json_key k = true.
Proof. destruct k; simpl; auto. Qed.

Lemma seq2_pairs_ser items :
  forallb json_ser items = true -> forallb pair_ok items = true ->
  dict_ser (flat_map (fun it => match pair_of it with Some p => [p] | None => [] end) items) = true.
Proof.
  induction items as [|it items IH]; simpl; auto.
  intros H1 H2. apply andb_true_iff in H1 as [Hi H1]. apply andb_true_iff in H2 as [Pi H2].
  unfold pair_ok, pair_of in *.
  destruct (seq_fast it) as [[|k [|x [|]]]|] eqn:S; try discriminate.
  pose proof (seq_fast_ser _ _ Hi S) as Hkx. simpl in Hkx.
  apply andb_true_iff in Hkx as [Hk Hx]. apply andb_true_iff in Hx as [Hx _].
  unfold dict_ser in *. simpl. rewrite (hashable_ser_key _ Pi Hk), Hx. simpl. auto.
Qed.

Lemma overlay_ser x :
  json_ser x = true -> update_accepts x = true -> dict_ser (overlay_pairs x) = true.
Proof.
  intros H A. unfold update_accepts, overlay_pairs in *.
  destruct x; try discriminate.
  - apply seq2_pairs_ser; auto; clear; induction s; simpl; auto.
  - apply seq2_pairs_ser; auto; rewrite <- json_ser_list; exact H.
  - rewrite <- json_ser_dict. exact H.
Qed.



Lemma step12_ser v : dict_ser (step12 v) = true.
Proof.
  unfold step12, base_dict.
  destruct (pystr_eqb _ _), (truthy (result_type v)); reflexivity.
Qed.


Lemma dict_set_keys k x d :
  map fst (dict_set k x d) = map fst d \/ map fst (dict_set k x d) = map fst d ++ [k].
Proof.
  induction d as [|[k0 x0] r IH]; simpl; auto.
  destruct (key_eqb k0 k); simpl; auto.
  destruct IH as [-> | ->]; auto.
Qed.

Lemma dict_merge_keys d ps : exists rest, map fst (dict_merge d ps) = map fst d ++ rest.
Proof.
  revert d. induction ps as [|[k x] ps IH]; intros d; simpl.
  - exists []. now rewrite app_nil_r.
  - destruct (IH (dict_set k x d)) as [rest E]. rewrite E.
    destruct (dict_set_keys k x d) as [-> | ->]; eauto.
    exists (k :: rest). now rewrite <- app_assoc.
Qed.

Lemma step12_keys_eq v : map fst (step12 v) = step12_keys v.
Proof.
  unfold step12, base_dict, step12_keys.
  destruct (pystr_eqb _ _), (truthy (result_type v)); reflexivity.
Qed.

(** X1: every dictionary [StructuredDataActionValue.struct_dict] returns can
    be passed to [json.dumps] without a [TypeError]. *)
Theorem action_output_json_serializable v d :
  struct_dict_action v = Ok d -> json_ser (PDict d) = true.
Proof.
  intros H. rewrite json_ser_dict.
  apply struct_dict_ok_iff in H as [[_ ->]|[x [J [A ->]]]].
  - apply step12_ser.
  - apply dict_merge_ser; [|apply step12_ser].
    apply overlay_ser; [exact (json_loads_ser _ _ J) | exact A].
Qed.

Lemma action_output_json_serializable_witness :
  json_ser (PDict (step12 ex_reserve)) = true.
Proof. apply (action_output_json_serializable ex_reserve). reflexivity. Defined.

Lemma map_pstr_ser l : json_ser (PList (map PStr l)) = true.
Proof. rewrite json_ser_list. induction l; simpl; auto. Qed.

(** X2: the dictionary [OpenHoursValue.struct_dict] returns is never
    accepted by [json.dumps]: [opens] and [closes] are [time] objects. *)
Theorem opening_hours_not_json_serializable v :
  json_ser (PDict (struct_dict_hours v)) = false.
Proof.
  rewrite json_ser_dict. unfold dict_ser, struct_dict_hours. cbn [forallb fst snd].
  rewrite map_pstr_ser. reflexivity.
Qed.



(** X4: the overlay never removes or reorders keys: the output starts with
    [@type], [target], then [query] for a [SearchAction], then [result] when
    [result_type] is non-empty; keys only [extra_json] adds come after. *)
Theorem action_output_key_order v d :
  struct_dict_action v = Ok d -> exists rest, map fst d = step12_keys v ++ rest.
Proof.
  intros H. rewrite <- step12_keys_eq.
  apply struct_dict_ok_iff in H as [[_ ->]|[x [J [A ->]]]].
  - exists []. now rewrite app_nil_r.
  - apply dict_merge_keys.
Qed.

Lemma action_output_key_order_witness :
  exists rest, map fst (dict_merge (step12 ex_pairs) [(K "a", PInt 1)]) = step12_keys ex_pairs ++ rest.
Proof. apply (action_output_key_order ex_pairs). vm_compute. reflexivity. Defined.







Lemma json_loads_nonempty s x : json_loads s = Ok x -> truthy s = true.
Proof. destruct s; [discriminate | reflexivity]. Qed.



(** X6: the exception [dict.update] raises for a parsed [extra_json] that is
    not an object: [TypeError] for a number, [true], [false] or [null];
    [ValueError] for a non-empty string; for an array, [TypeError] when its
    first element is not iterable or is a pair with an array or object as
    key, [ValueError] when its first element does not have two items. *)
Theorem extra_json_error_kinds v x :
  json_loads (extra_json v) = Ok x ->
  match x with
  | PNone | PBool _ | PInt _ | PFloat _ | PTime _ => struct_dict_action v = Err TypeError
  | PStr (_ :: _) => struct_dict_action v = Err ValueError
  | PList (y :: _) =>
      match seq_fast y with
      | None => struct_dict_action v = Err TypeError
      | Some [k; _] => hashable k = false -> struct_dict_action v = Err TypeError
      | Some _ => struct_dict_action v = Err ValueError
      end
  | _ => True
  end.
Proof.
  intros J. pose proof (json_loads_nonempty _ _ J) as T.
  unfold struct_dict_action. rewrite updates_eq, T, J.
  destruct x as [| | | |[|c s]|[|y ys]| |]; try exact I; try reflexivity.
  simpl. destruct (seq_fast y) as [[|k [|z [|]]]|]; try reflexivity.
  intros Hk. unfold bind, setitem. rewrite Hk. reflexivity.
Qed.

Lemma extra_json_error_kinds_witness :
  struct_dict_action (with_extra ex_plain (str "42")) = Err TypeError.
Proof.
  exact (extra_json_error_kinds (with_extra ex_plain (str "42")) (PInt 42) eq_refl).
Defined.

(** X7: with an empty [result_type], [result_name] is never read: changing
    it does not change the output. *)
Theorem result_name_unused v n :
  result_type v = [] -> struct_dict_action (set_result_name v n) = struct_dict_action v.
Proof.
  intros Hr. unfold struct_dict_action, updates. simpl. rewrite Hr. reflexivity.
Qed.

Lemma result_name_unused_witness :
  struct_dict_action (set_result_name ex_plain (str "x")) = struct_dict_action ex_plain.
Proof. apply result_name_unused. reflexivity. Defined.

(** X8: the [days] field of [OpenHoursBlock] accepts a selection exactly
    when it is non-empty and every token is one of the seven weekday names;
    repeated tokens are accepted. *)
Theorem days_field_validate sel :
  validate days_field sel = Ok tt <-> sel <> [] /\ Forall (fun t => In t weekdays) sel.
Proof.
  assert (C : map fst (choices days_field) = weekdays) by reflexivity.
  unfold validate. replace (required days_field) with true by reflexivity.
  destruct sel as [|t sel]; cbn [andb].
  - split; [discriminate | intros [N _]; congruence].
  - rewrite Forall_forall.
    destruct (forallb (valid_value days_field) (t :: sel)) eqn:A.
    + split; [intros _|reflexivity]. split; [discriminate|].
      rewrite forallb_forall in A. intros u I. rewrite <- C. apply valid_value_iff, A, I.
    + split; [discriminate|]. intros [_ H]. exfalso.
      apply forallb_valid_false in A as [u [I N]]. rewrite C in N. auto.
Qed.

Lemma weekdays_repr : Forall (fun d => py_repr d = Some (39 :: d ++ [39])) weekdays.
Proof. unfold weekdays. repeat constructor. Qed.

Lemma repr_all_quoted sel :
  Forall (fun d => py_repr d = Some (39 :: d ++ [39])) sel ->
  repr_all sel = Some (map (fun d => 39 :: d ++ [39]) sel).
Proof.
  induction 1 as [|d sel Hd _ IH]; [reflexivity|]. simpl. rewrite Hd, IH. reflexivity.
Qed.

Lemma days_validate_weekdays sel :
  validate days_field sel = Ok tt -> Forall (fun t => In t weekdays) sel.
Proof.
  unfold validate. replace (required days_field) with true by reflexivity.
  intros H. destruct (forallb (valid_value days_field) sel) eqn:A;
    [|destruct sel; discriminate].
  rewrite Forall_forall. rewrite forallb_forall in A. intros u I.
  change weekdays with (map fst (choices days_field)). apply valid_value_iff, A, I.
Qed.

(** X9: for a selection the [days] field accepts, the searchable content is
    the single string [str] gives for the list: the names, each in single
    quotes, separated by a comma and a space, in square brackets. *)
Theorem days_searchable_content sel :
  validate days_field sel = Ok tt ->
  get_searchable_content sel =
    Some [str "[" ++ join (str ", ") (map (fun d => 39 :: d ++ [39]) sel) ++ str "]"].
Proof.
  intros H. apply days_validate_weekdays in H.
  assert (R : Forall (fun d => py_repr d = Some (39 :: d ++ [39])) sel).
  { rewrite Forall_forall in *. intros d I.
    pose proof weekdays_repr as W. rewrite Forall_forall in W. auto. }
  unfold get_searchable_content, list_str. rewrite (repr_all_quoted _ R). reflexivity.
Qed.

Lemma days_searchable_content_witness :
  get_searchable_content [str "Monday"; str "Tuesday"] =
    Some [str "['Monday', 'Tuesday']"].
Proof. apply (days_searchable_content [str "Monday"; str "Tuesday"]). reflexivity. Defined.
